(** * Heartbeat animation on the 8x12 LED matrix

    A shallow embedding of [src/agosarduino/MatrixAnimation.cpp] and its
    header: the four bitmap globals with their brace initialisers, the three
    timing constants, [initMatrix] and [updateMatrixAnimation].

    The display driver ([ArduinoLEDMatrix]) and the Arduino core function
    [delay] are outside the repository.  They are kept abstract behind the
    [Platform] class; every call made to them is also recorded as an
    [Event], so that what the sequencer asks of the hardware can be stated
    for any driver. *)

From Stdlib Require Import ZArith List Lia.
From stdpp Require Import base tactics option list.
Import ListNotations.

(** ** Data model *)

(** [byte] is the Arduino alias of [uint8_t]. *)
Definition byte := Z.

Definition is_byte (v : byte) : Prop := (0 <= v < 256)%Z.

(** The value of an object of type [byte[8][12]], row by row. *)
Definition Frame := list (list byte).

Definition ROWS : nat := 8.
Definition COLS : nat := 12.

(** [f[r][c]], for indices inside the array. *)
Definition cell (f : Frame) (r c : nat) : option byte :=
  row ← f !! r; row !! c.

(** Shape of a value: [rows] rows of [cols] cells each. *)
Definition has_shape (rows cols : nat) (f : Frame) : Prop :=
  length f = rows ∧ Forall (λ row, length row = cols) f.

Definition binary (f : Frame) : Prop :=
  Forall (Forall (λ v : byte, v = 0%Z ∨ v = 1%Z)) f.

(** [binary] as a boolean test. *)
Definition binaryb (f : Frame) : bool :=
  forallb (forallb (λ v : byte, Z.eqb v 0 || Z.eqb v 1)) f.

(** [p] holds at every position of [xs], against the cell of [ys] at the
    same position; [ys] must not be the shorter one. *)
Fixpoint all2 {A B : Type} (p : A → B → bool) (xs : list A) (ys : list B) : bool :=
  match xs, ys with
  | [], _ => true
  | _ :: _, [] => false
  | x :: xs', y :: ys' => p x y && all2 p xs' ys'
  end.

(** A lit cell stays lit. *)
Definition lit_implies (x y : byte) : bool :=
  negb (Z.eqb x 1) || Z.eqb y 1.

(** Every cell lit in [small] is lit in [big]. *)
Definition within (small big : Frame) : bool :=
  all2 (all2 lit_implies) small big.

(** *** Brace initialisation

    [T a[n] = { x0, ..., xk }] with [k < n] sets the first cells from the
    list and value-initialises (zeroes) the rest.  A list longer than the
    array does not compile, so nothing is cut off here: the shape of the
    results below shows that no initialiser of the file is too long. *)
Definition brace_init {A : Type} (n : nat) (zero : A) (xs : list A) : list A :=
  xs ++ replicate (n - length xs) zero.

Definition zero_row : list byte := replicate COLS 0%Z.

(** [byte a[8][12] = { {...}, ..., {...} }]. *)
Definition brace_init_8x12 (rows : list (list byte)) : Frame :=
  brace_init ROWS zero_row (brace_init COLS 0%Z <$> rows).

(** *** The bitmap globals *)

(** The four arrays declared in [MatrixAnimation.h].  They are plain
    (non-[const]) globals, so the program reads them from memory. *)
Inductive global : Type :=
  | frame_full
  | frame_med
  | frame_small
  | frame_off.

(** The brace lists as written in [MatrixAnimation.cpp]. *)
Definition initializer (g : global) : list (list byte) :=
  match g with
  | frame_full =>
      [ [ 0; 0; 1; 1; 0; 0; 0; 1; 1; 0; 0; 0 ];
        [ 0; 1; 1; 1; 1; 0; 1; 1; 1; 1; 0; 0 ];
        [ 0; 1; 1; 1; 1; 1; 1; 1; 1; 1; 0; 0 ];
        [ 0; 0; 1; 1; 1; 1; 1; 1; 1; 0; 0; 0 ];
        [ 0; 0; 0; 1; 1; 1; 1; 1; 0; 0; 0; 0 ];
        [ 0; 0; 0; 0; 1; 1; 1; 0; 0; 0; 0; 0 ];
        [ 0; 0; 0; 0; 0; 1; 0; 0; 0; 0; 0; 0 ];
        [ 0; 0; 0; 0; 0; 0; 0; 0; 0; 0; 0; 0 ] ]
  | frame_med =>
      [ [ 0; 0; 0; 1; 0; 0; 0; 1; 0; 0; 0; 0 ];
        [ 0; 0; 1; 1; 1; 0; 1; 1; 1; 0; 0; 0 ];
        [ 0; 0; 1; 1; 1; 1; 1; 1; 1; 0; 0; 0 ];
        [ 0; 0; 0; 1; 1; 1; 1; 1; 0; 0; 0; 0 ];
        [ 0; 0; 0; 0; 1; 1; 1; 0; 0; 0; 0; 0 ];
        [ 0; 0; 0; 0; 0; 1; 0; 0; 0; 0; 0; 0 ];
        [ 0; 0; 0; 0; 0; 0; 0; 0; 0; 0; 0; 0 ];
        [ 0; 0; 0; 0; 0; 0; 0; 0; 0; 0; 0; 0 ] ]
  | frame_small =>
      [ [ 0; 0; 0; 0; 0; 0; 0; 0; 0; 0; 0; 0 ];
        [ 0; 0; 0; 1; 0; 0; 0; 1; 0; 0; 0; 0 ];
        [ 0; 0; 0; 1; 1; 0; 1; 1; 0; 0; 0; 0 ];
        [ 0; 0; 0; 0; 1; 1; 1; 0; 0; 0; 0; 0 ];
        [ 0; 0; 0; 0; 0; 1; 0; 0; 0; 0; 0; 0 ];
        [ 0; 0; 0; 0; 0; 0; 0; 0; 0; 0; 0; 0 ];
        [ 0; 0; 0; 0; 0; 0; 0; 0; 0; 0; 0; 0 ];
        [ 0; 0; 0; 0; 0; 0; 0; 0; 0; 0; 0; 0 ] ]
  | frame_off => [ [ 0 ] ]
  end%Z.

(** The value each global holds when the program starts. *)
Definition initial_value (g : global) : Frame :=
  brace_init_8x12 (initializer g).

(** *** Timings (ms), [const unsigned long] *)

Definition SHORT : Z := 100.
Definition SHORT_GAP : Z := 100.
Definition LONG_GAP : Z := 700.

Definition is_unsigned_long (v : Z) : Prop := (0 <= v < 2 ^ 32)%Z.

(** ** The hardware boundary *)

(** What the program asks of the platform, in the order it asks. *)
Inductive Event : Type :=
  | Begin
  | Render (bitmap : Frame) (rows cols : Z)
  | Wait (ms : Z).

Inductive Kind : Type := KBegin | KRender | KWait.

Definition kind (e : Event) : Kind :=
  match e with
  | Begin => KBegin
  | Render _ _ _ => KRender
  | Wait _ => KWait
  end.

Global Instance Kind_eq_dec : EqDecision Kind.
Proof. solve_decision. Defined.

(** How many calls of kind [k] a trace holds. *)
Definition calls (k : Kind) (tr : list Event) : nat :=
  length (filter (λ e, kind e = k) tr).

(** The bitmaps handed to the driver, with the row and column counts. *)
Definition renders (tr : list Event) : list (Frame * Z * Z) :=
  omap (λ e, match e with Render f r c => Some (f, r, c) | _ => None end) tr.

(** The counts of a [renderBitmap] call are those of the array it is
    given. *)
Definition counts_match (call : Frame * Z * Z) : Prop :=
  let '(f, rows, cols) := call in
  Z.of_nat (length f) = rows ∧ Forall (λ row, Z.of_nat (length row) = cols) f.

(** The durations handed to [delay]. *)
Definition delays (tr : list Event) : list Z :=
  omap (λ e, match e with Wait ms => Some ms | _ => None end) tr.

(** The external collaborators: the [ArduinoLEDMatrix] object and the core's
    [delay].  [Hw] is whatever state they keep (the picture on the LEDs, the
    clock).  The driver is handed the contents of the array it is pointed
    at and the two counts; it has no access to the program's globals. *)
Class Platform (Hw : Type) : Type := {
  drv_begin : Hw → Hw;
  drv_renderBitmap : Frame → Z → Z → Hw → Hw;
  core_delay : Z → Hw → Hw
}.

(** Program state: the memory of the four arrays, and the state behind the
    global [matrix] object. *)
Record World (Hw : Type) : Type := mkWorld {
  globals : global → Frame;
  matrix : Hw
}.
Arguments mkWorld {Hw} _ _.
Arguments globals {Hw} _ _.
Arguments matrix {Hw} _.

(** A [void] procedure takes a world to a world and says what it asked of
    the platform on the way. *)
Definition M (Hw : Type) (A : Type) : Type :=
  World Hw → A * World Hw * list Event.

Definition result {Hw A} (r : A * World Hw * list Event) : A := r.1.1.
Definition after {Hw A} (r : A * World Hw * list Event) : World Hw := r.1.2.
Definition trace {Hw A} (r : A * World Hw * list Event) : list Event := r.2.

Global Instance M_ret {Hw} : MRet (M Hw) :=
  λ A a w, (a, w, []).

Global Instance M_bind {Hw} : MBind (M Hw) :=
  λ A B k m w,
    let '(a, w1, t1) := m w in
    let '(b, w2, t2) := k a w1 in
    (b, w2, t1 ++ t2).

(** The world in which C++ static initialisation has just run. *)
Definition boot {Hw} (h : Hw) : World Hw := mkWorld initial_value h.

Section Sequencer.
Context {Hw : Type} `{!Platform Hw}.

(** [matrix.begin()] *)
Definition matrix_begin : M Hw unit :=
  λ w, (tt, mkWorld (globals w) (drv_begin (matrix w)), [Begin]).

(** [matrix.renderBitmap(g, rows, cols)]: the array is read where it
    stands in memory. *)
Definition matrix_renderBitmap (g : global) (rows cols : Z) : M Hw unit :=
  λ w,
    let bitmap := globals w g in
    (tt, mkWorld (globals w) (drv_renderBitmap bitmap rows cols (matrix w)),
      [Render bitmap rows cols]).

(** [delay(ms)] *)
Definition delay (ms : Z) : M Hw unit :=
  λ w, (tt, mkWorld (globals w) (core_delay ms (matrix w)), [Wait ms]).

Definition initMatrix : M Hw unit :=
  matrix_begin.

Definition updateMatrixAnimation : M Hw unit :=
  (* Heartbeat: small -> med -> full (quick) -> med -> off (pause) *)
  matrix_renderBitmap frame_small 8 12;;
  delay SHORT;;
  matrix_renderBitmap frame_med 8 12;;
  delay SHORT_GAP;;
  matrix_renderBitmap frame_full 8 12;;
  delay SHORT;;
  matrix_renderBitmap frame_med 8 12;;
  delay LONG_GAP;;
  matrix_renderBitmap frame_off 8 12.

(** *** Callers *)

(** The sequencer called [n] times in a row, as from [loop()]. *)
Fixpoint repeat_update (n : nat) : M Hw unit :=
  match n with
  | O => mret tt
  | S n' => updateMatrixAnimation;; repeat_update n'
  end.

(** The two entry points of the header. *)
Inductive Op : Type := OpInit | OpUpdate.

Definition run_op (o : Op) : M Hw unit :=
  match o with
  | OpInit => initMatrix
  | OpUpdate => updateMatrixAnimation
  end.

Fixpoint run_ops (os : list Op) : M Hw unit :=
  match os with
  | [] => mret tt
  | o :: os' => run_op o;; run_ops os'
  end.

(** The effect of a recorded call on the hardware, and of a whole trace,
    oldest call first. *)
Definition apply_event (h : Hw) (e : Event) : Hw :=
  match e with
  | Begin => drv_begin h
  | Render f rows cols => drv_renderBitmap f rows cols h
  | Wait ms => core_delay ms h
  end.

Definition replay (tr : list Event) (h : Hw) : Hw :=
  foldl apply_event h tr.

(** What the declared type [byte[8][12]] guarantees of the arrays in
    memory, whatever they hold. *)
Definition well_typed (w : World Hw) : Prop :=
  ∀ g, has_shape 8 12 (globals w g).

(** *** Straight-line procedures

    Procedures built from driver calls and delays by sequencing alone,
    indexed by the kinds of the calls in program order. *)
Inductive StraightLine : M Hw unit → list Kind → Prop :=
  | SL_skip : StraightLine (mret tt) []
  | SL_begin : StraightLine matrix_begin [KBegin]
  | SL_render g rows cols :
      StraightLine (matrix_renderBitmap g rows cols) [KRender]
  | SL_delay ms : StraightLine (delay ms) [KWait]
  | SL_seq m1 m2 k1 k2 :
      StraightLine m1 k1 → StraightLine m2 k2 →
      StraightLine (m1;; m2) (k1 ++ k2).

End Sequencer.

(** The trace of one heartbeat when the arrays hold [mem]. *)
Definition heartbeat (mem : global → Frame) : list Event :=
  [ Render (mem frame_small) 8 12; Wait 100;
    Render (mem frame_med) 8 12;   Wait 100;
    Render (mem frame_full) 8 12;  Wait 100;
    Render (mem frame_med) 8 12;   Wait 700;
    Render (mem frame_off) 8 12 ].

(** *** A recording driver

    The mock of the test scenario: it keeps the list of calls it received,
    oldest first. *)
Definition Recorder : Type := list Event.

Global Instance recorder_platform : Platform Recorder := {
  drv_begin h := h ++ [Begin];
  drv_renderBitmap f r c h := h ++ [Render f r c];
  core_delay ms h := h ++ [Wait ms]
}.

(** ** Views of a trace and of a call sequence *)

Global Instance Op_eq_dec : EqDecision Op.
Proof. solve_decision. Defined.

(** What one entry point asks of the platform when the arrays hold [mem]. *)
Definition op_trace (mem : global → Frame) (o : Op) : list Event :=
  match o with
  | OpInit => [Begin]
  | OpUpdate => heartbeat mem
  end.

(** How often each entry point occurs in a call sequence. *)
Definition inits (os : list Op) : nat :=
  length (filter (λ o, o = OpInit) os).

Definition updates (os : list Op) : nat :=
  length (filter (λ o, o = OpUpdate) os).

(** The time a trace spends in [delay], in milliseconds. *)
Definition total_wait (tr : list Event) : Z :=
  foldr Z.add 0%Z (delays tr).

(** The time waited at the head of a trace before the driver is called
    again. *)
Fixpoint hold_time (tr : list Event) : Z :=
  match tr with
  | Wait ms :: tr' => (ms + hold_time tr')%Z
  | _ => 0%Z
  end.

(** Each rendered bitmap with the time it is held: the delays issued
    after its render and before the next driver call. *)
Fixpoint holds (tr : list Event) : list (Frame * Z) :=
  match tr with
  | [] => []
  | Render f _ _ :: tr' => (f, hold_time tr') :: holds tr'
  | _ :: tr' => holds tr'
  end.

(** A trace that opens with a driver call, or is empty. *)
Definition opens_with_call (tr : list Event) : Prop :=
  match tr with
  | Wait _ :: _ => False
  | _ => True
  end.

(** Columns 0..10 of every row read the same from either end. *)
Definition mirroredb (f : Frame) : bool :=
  forallb (λ row, bool_decide (take 11 row = reverse (take 11 row))) f.

(** One of the four bitmaps of the file, with the counts 8 and 12. *)
Definition initial_bitmap_call (call : Frame * Z * Z) : Prop :=
  ∃ g, call = (initial_value g, 8%Z, 12%Z).

(** * Properties *)

(** ** Brace initialisation *)

Lemma brace_init_length {A : Type} (n : nat) (zero : A) (xs : list A) :
  length xs ≤ n → length (brace_init n zero xs) = n.
Proof.
  intros Hfit. unfold brace_init.
  rewrite length_app, length_replicate. lia.
Qed.

Lemma brace_init_Forall {A : Type} (P : A → Prop) (n : nat) (zero : A) (xs : list A) :
  P zero → Forall P xs → Forall P (brace_init n zero xs).
Proof.
  intros Hzero Hxs. unfold brace_init.
  apply Forall_app_2; [assumption | by apply Forall_replicate].
Qed.

Lemma brace_init_lookup_given {A : Type} (n : nat) (zero : A) (xs : list A) (i : nat) (x : A) :
  xs !! i = Some x → brace_init n zero xs !! i = Some x.
Proof. intros Hi. unfold brace_init. by apply lookup_app_l_Some. Qed.

Lemma brace_init_lookup_filled {A : Type} (n : nat) (zero : A) (xs : list A) (i : nat) :
  length xs ≤ i → i < n → brace_init n zero xs !! i = Some zero.
Proof.
  intros Hge Hlt. unfold brace_init.
  rewrite lookup_app_r by assumption.
  apply lookup_replicate_2. lia.
Qed.

(** An initialiser that fits gives an array of the declared shape. *)
Lemma brace_init_8x12_shape (rows : list (list byte)) :
  length rows ≤ 8 →
  Forall (λ row, length row ≤ 12) rows →
  has_shape 8 12 (brace_init_8x12 rows).
Proof.
  intros Hrows Hcols. unfold brace_init_8x12, has_shape. split.
  - apply brace_init_length. by rewrite length_fmap.
  - apply brace_init_Forall.
    + apply length_replicate.
    + apply Forall_fmap. eapply Forall_impl; [exact Hcols |].
      intros row Hrow. by apply brace_init_length.
Qed.

(** Cells that the initialiser leaves out are zero, hence binary. *)
Lemma brace_init_8x12_binary (rows : list (list byte)) :
  binary rows → binary (brace_init_8x12 rows).
Proof.
  intros Hbin. unfold brace_init_8x12, binary.
  apply brace_init_Forall.
  - apply Forall_replicate. by left.
  - apply Forall_fmap. eapply Forall_impl; [exact Hbin |].
    intros row Hrow. apply brace_init_Forall; [by left | exact Hrow].
Qed.

(** ** The boolean test decides the property *)

Lemma binaryb_spec (f : Frame) : binaryb f = true ↔ binary f.
Proof.
  unfold binaryb, binary. induction f as [| row f IH]; simpl.
  - split; [constructor | reflexivity].
  - rewrite andb_true_iff, IH, Forall_cons. apply and_iff_compat_r.
    clear IH. induction row as [| v row IH]; simpl.
    + split; [constructor | reflexivity].
    + rewrite andb_true_iff, IH, Forall_cons, orb_true_iff, !Z.eqb_eq.
      reflexivity.
Qed.

(** ** The four bitmaps *)

Lemma initializer_fits (g : global) :
  length (initializer g) ≤ 8 ∧ Forall (λ row, length row ≤ 12) (initializer g).
Proof. destruct g; simpl; (split; [lia |]); repeat constructor. Qed.

Lemma initializer_binary (g : global) : binary (initializer g).
Proof. apply binaryb_spec. by destruct g. Qed.

Lemma initial_value_shape (g : global) : has_shape 8 12 (initial_value g).
Proof.
  destruct (initializer_fits g) as [Hrows Hcols].
  by apply brace_init_8x12_shape.
Qed.

Lemma initial_value_binary (g : global) : binary (initial_value g).
Proof. apply brace_init_8x12_binary, initializer_binary. Qed.

Lemma cell_Some (f : Frame) (r c : nat) (v : byte) :
  cell f r c = Some v ↔ ∃ row, f !! r = Some row ∧ row !! c = Some v.
Proof.
  unfold cell. destruct (f !! r) as [row |]; simpl.
  - split; [eauto | intros (row' & [= <-] & Hc); exact Hc].
  - split; [discriminate | intros (row' & [=] & _)].
Qed.

Lemma cell_in_range (f : Frame) (r c : nat) :
  has_shape 8 12 f → r < 8 → c < 12 → is_Some (cell f r c).
Proof.
  intros [Hlen Hrows] Hr Hc.
  destruct (lookup_lt_is_Some_2 f r) as [row Hrow]; [lia |].
  assert (length row = 12) as Hw
    by (rewrite Forall_lookup in Hrows; by eapply Hrows).
  destruct (lookup_lt_is_Some_2 row c) as [v Hv]; [lia |].
  exists v. apply cell_Some. eauto.
Qed.

Lemma cell_out_of_range (f : Frame) (r c : nat) :
  has_shape 8 12 f → ¬ (r < 8 ∧ c < 12) → cell f r c = None.
Proof.
  intros [Hlen Hrows] Hout.
  destruct (cell f r c) as [v |] eqn:Hcell; [| reflexivity].
  apply cell_Some in Hcell as (row & Hrow & Hv).
  assert (length row = 12) as Hw
    by (rewrite Forall_lookup in Hrows; by eapply Hrows).
  apply lookup_lt_Some in Hrow, Hv. lia.
Qed.

(** C2: each of [frame_full], [frame_med], [frame_small] and [frame_off]
    has exactly 8 rows, every row has exactly 12 cells, and every cell holds
    0 or 1. *)
Theorem frames_8x12_binary (g : global) :
  length (initial_value g) = 8
  ∧ Forall (λ row, length row = 12) (initial_value g)
  ∧ Forall (Forall (λ v : byte, v = 0%Z ∨ v = 1%Z)) (initial_value g).
Proof.
  destruct (initial_value_shape g) as [Hrows Hcols].
  pose proof (initial_value_binary g) as Hbin.
  by repeat split.
Qed.

(** [{ {0} }] names one cell; the other 95 are zeroed by the language. *)
Lemma frame_off_value :
  initial_value frame_off = replicate 8 (replicate 12 0%Z).
Proof. reflexivity. Qed.

(** C3: [frame_off[r][c]] is 0 for every row index [r] in 0..7 and every
    column index [c] in 0..11. *)
Theorem frame_off_all_zero (r c : nat) :
  r < 8 → c < 12 → cell (initial_value frame_off) r c = Some 0%Z.
Proof.
  intros Hr Hc. rewrite frame_off_value. apply cell_Some.
  exists (replicate 12 0%Z). split; by apply lookup_replicate_2.
Qed.

Lemma frame_off_all_zero_witness :
  7 < 8 ∧ 11 < 12 ∧ cell (initial_value frame_off) 7 11 = Some 0%Z.
Proof.
  split; [lia |]. split; [lia |].
  apply (frame_off_all_zero 7 11); lia.
Defined.

Lemma all2_lookup {A B : Type} (p : A → B → bool) (xs : list A) (ys : list B)
    (i : nat) (x : A) :
  all2 p xs ys = true → xs !! i = Some x →
  ∃ y, ys !! i = Some y ∧ p x y = true.
Proof.
  revert ys i. induction xs as [| x0 xs IH]; intros ys i Hall Hx.
  - discriminate.
  - destruct ys as [| y0 ys]; [discriminate |].
    simpl in Hall. apply andb_true_iff in Hall as [Hhead Htail].
    destruct i as [| i]; simpl in *.
    + injection Hx as <-. eauto.
    + by apply IH.
Qed.

Lemma within_cell (small big : Frame) (r c : nat) :
  within small big = true →
  cell small r c = Some 1%Z → cell big r c = Some 1%Z.
Proof.
  intros Hin Hsmall.
  apply cell_Some in Hsmall as (row & Hrow & Hv).
  destruct (all2_lookup _ _ _ _ _ Hin Hrow) as (row' & Hrow' & Hrows).
  destruct (all2_lookup _ _ _ _ _ Hrows Hv) as (v' & Hv' & Hlit).
  apply cell_Some. exists row'. split; [exact Hrow' |].
  unfold lit_implies in Hlit. simpl in Hlit.
  apply Z.eqb_eq in Hlit. by subst v'.
Qed.

Lemma small_within_med :
  within (initial_value frame_small) (initial_value frame_med) = true.
Proof. reflexivity. Qed.

Lemma med_within_full :
  within (initial_value frame_med) (initial_value frame_full) = true.
Proof. reflexivity. Qed.

(** C10: the hearts are nested.  For every row index [r] in 0..7 and
    column index [c] in 0..11, a cell lit in [frame_small] is lit in
    [frame_med], and a cell lit in [frame_med] is lit in [frame_full]. *)
Theorem hearts_nested (r c : nat) :
  r < 8 → c < 12 →
  (cell (initial_value frame_small) r c = Some 1%Z →
   cell (initial_value frame_med) r c = Some 1%Z)
  ∧ (cell (initial_value frame_med) r c = Some 1%Z →
     cell (initial_value frame_full) r c = Some 1%Z).
Proof.
  intros _ _. split.
  - apply within_cell, small_within_med.
  - apply within_cell, med_within_full.
Qed.

Lemma hearts_nested_witness :
  cell (initial_value frame_small) 1 3 = Some 1%Z
  ∧ cell (initial_value frame_med) 1 3 = Some 1%Z
  ∧ cell (initial_value frame_full) 1 3 = Some 1%Z.
Proof.
  destruct (hearts_nested 1 3 ltac:(lia) ltac:(lia)) as [Hsm Hmf].
  assert (cell (initial_value frame_small) 1 3 = Some 1%Z) as Hs
    by reflexivity.
  split; [exact Hs |]. split; [exact (Hsm Hs) | exact (Hmf (Hsm Hs))].
Defined.

(** The nesting is strict: each larger heart lights cells the smaller one
    leaves dark. *)
Example med_not_within_small :
  within (initial_value frame_med) (initial_value frame_small) = false.
Proof. reflexivity. Qed.

Example full_not_within_med :
  within (initial_value frame_full) (initial_value frame_med) = false.
Proof. reflexivity. Qed.

(** ** The sequencer *)

Section SequencerFacts.
Context {Hw : Type} `{!Platform Hw}.
Implicit Types (w : World Hw) (m k : M Hw unit) (tr : list Event).

Lemma run_seq m k w :
  (m;; k) w =
    (result (k (after (m w))), after (k (after (m w))),
      trace (m w) ++ trace (k (after (m w)))).
Proof.
  unfold mbind, M_bind.
  destruct (m w) as [[a w1] t1]. unfold after, trace, result. simpl.
  destruct (k w1) as [[b w2] t2]. reflexivity.
Qed.

Lemma trace_seq m k w :
  trace ((m;; k) w) = trace (m w) ++ trace (k (after (m w))).
Proof. by rewrite run_seq. Qed.

Lemma after_seq m k w :
  after ((m;; k) w) = after (k (after (m w))).
Proof. by rewrite run_seq. Qed.

Lemma replay_app tr1 tr2 (h : Hw) :
  replay (tr1 ++ tr2) h = replay tr2 (replay tr1 h).
Proof. unfold replay. apply foldl_app. Qed.

(** One call of the sequencer, in full: result, memory, hardware, trace. *)
Lemma update_run w :
  updateMatrixAnimation w =
    (tt,
     mkWorld (globals w) (replay (heartbeat (globals w)) (matrix w)),
     heartbeat (globals w)).
Proof. reflexivity. Qed.

Lemma init_run w :
  initMatrix w = (tt, mkWorld (globals w) (drv_begin (matrix w)), [Begin]).
Proof. reflexivity. Qed.

Lemma update_globals w :
  globals (after (updateMatrixAnimation w)) = globals w.
Proof. by rewrite update_run. Qed.

Lemma run_op_globals (o : Op) w :
  globals (after (run_op o w)) = globals w.
Proof. destruct o; reflexivity. Qed.

Lemma run_ops_globals (os : list Op) w :
  globals (after (run_ops os w)) = globals w.
Proof.
  revert w. induction os as [| o os IH]; intros w; simpl.
  - reflexivity.
  - by rewrite after_seq, IH, run_op_globals.
Qed.

(** A straight-line procedure returns, leaves the arrays alone, makes
    calls of the listed kinds in the listed order, and drives the hardware
    by exactly the calls in its trace. *)
Lemma straight_line_sound m (ks : list Kind) :
  StraightLine m ks →
  ∀ w, kind <$> trace (m w) = ks
       ∧ globals (after (m w)) = globals w
       ∧ matrix (after (m w)) = replay (trace (m w)) (matrix w).
Proof.
  induction 1 as [| | g rows cols | ms | m1 m2 k1 k2 _ IH1 _ IH2]; intros w.
  - by repeat split.
  - by repeat split.
  - by repeat split.
  - by repeat split.
  - destruct (IH1 w) as (Hk1 & Hg1 & Hh1).
    destruct (IH2 (after (m1 w))) as (Hk2 & Hg2 & Hh2).
    rewrite trace_seq, after_seq, fmap_app, replay_app.
    repeat split; congruence.
Qed.

Lemma update_is_straight_line :
  StraightLine updateMatrixAnimation
    [KRender; KWait; KRender; KWait; KRender; KWait; KRender; KWait; KRender].
Proof.
  unfold updateMatrixAnimation.
  repeat first
    [ apply SL_render | apply SL_delay
    | apply (SL_seq _ _ [KRender]) | apply (SL_seq _ _ [KWait]) ].
Qed.

Lemma repeat_update_globals (n : nat) w :
  globals (after (repeat_update n w)) = globals w.
Proof.
  revert w. induction n as [| n IH]; intros w; simpl.
  - reflexivity.
  - by rewrite after_seq, IH, update_globals.
Qed.

Lemma repeat_update_trace (n : nat) w :
  trace (repeat_update n w) = mjoin (replicate n (heartbeat (globals w))).
Proof.
  revert w. induction n as [| n IH]; intros w; simpl.
  - reflexivity.
  - rewrite trace_seq, IH, update_globals. by rewrite update_run.
Qed.

Lemma repeat_update_straight_line (n : nat) :
  ∃ ks, StraightLine (repeat_update n) ks.
Proof.
  induction n as [| n [ks IH]]; simpl.
  - eexists. apply SL_skip.
  - eexists. apply SL_seq; [apply update_is_straight_line | exact IH].
Qed.

(** Repeated calls touch the hardware through the recorded calls only. *)
Lemma repeat_update_matrix (n : nat) w :
  matrix (after (repeat_update n w)) =
    replay (trace (repeat_update n w)) (matrix w).
Proof.
  destruct (repeat_update_straight_line n) as [ks Hsl].
  by destruct (straight_line_sound _ _ Hsl w) as (_ & _ & Hhw).
Qed.

(** An array of type [byte[8][12]] goes with the counts 8 and 12. *)
Lemma typed_array_counts w (g : global) :
  well_typed w → counts_match (globals w g, 8%Z, 12%Z).
Proof.
  intros Hty. destruct (Hty g) as [Hrows Hcols]. unfold counts_match. split.
  - by rewrite Hrows.
  - eapply Forall_impl; [exact Hcols |].
    intros row Hrow. simpl in Hrow. by rewrite Hrow.
Qed.

End SequencerFacts.

Section SequencerClaims.
Context {Hw : Type} `{!Platform Hw}.
Implicit Types (w : World Hw) (h : Hw).

(** C1: one call of [updateMatrixAnimation] issues exactly: render
    [frame_small], wait 100 ms, render [frame_med], wait 100 ms, render
    [frame_full], wait 100 ms, render [frame_med], wait 700 ms, render
    [frame_off]; nothing follows the last render and nothing else is
    rendered or waited for.  This holds in every state and for every
    driver. *)
Theorem update_trace_exact w :
  trace (updateMatrixAnimation w) =
    [ Render (globals w frame_small) 8 12; Wait 100;
      Render (globals w frame_med) 8 12;   Wait 100;
      Render (globals w frame_full) 8 12;  Wait 100;
      Render (globals w frame_med) 8 12;   Wait 700;
      Render (globals w frame_off) 8 12 ].
Proof. by rewrite update_run. Qed.

(** C4: neither [initMatrix] nor [updateMatrixAnimation] writes to
    [frame_full], [frame_med], [frame_small] or [frame_off].  After any
    sequence of calls the arrays hold what they held before, and from
    program start they hold the values of their initialisers. *)
Theorem frames_never_modified (os : list Op) :
  (∀ w, globals (after (run_ops os w)) = globals w)
  ∧ (∀ h g, globals (after (run_ops os (boot h))) g = initial_value g).
Proof.
  split.
  - intros w. apply run_ops_globals.
  - intros h g. by rewrite run_ops_globals.
Qed.

(** C5: [n] calls in a row issue the heartbeat trace (five renders, four
    delays) [n] times over.  The sequencer keeps no state of its own: a call
    leaves the arrays as they were and reaches the hardware only through
    the calls of its trace, so the call that follows issues the same trace
    as the first one. *)
Theorem repeat_update_repeats (n : nat) w :
  trace (repeat_update n w) = mjoin (replicate n (heartbeat (globals w)))
  ∧ globals (after (updateMatrixAnimation w)) = globals w
  ∧ globals (after (repeat_update n w)) = globals w
  ∧ matrix (after (repeat_update n w)) =
      replay (trace (repeat_update n w)) (matrix w)
  ∧ trace (updateMatrixAnimation (after (repeat_update n w))) =
      trace (updateMatrixAnimation w).
Proof.
  split; [apply repeat_update_trace |].
  split; [apply update_globals |].
  split; [apply repeat_update_globals |].
  split; [apply repeat_update_matrix |].
  by rewrite !update_run, repeat_update_globals.
Qed.

(** C6: [SHORT] is 100, [SHORT_GAP] is 100 and [LONG_GAP] is 700
    milliseconds; the sequencer's four delays are [SHORT], [SHORT_GAP],
    [SHORT], [LONG_GAP], so it waits for no other duration. *)
Theorem timing_constants w :
  SHORT = 100%Z ∧ SHORT_GAP = 100%Z ∧ LONG_GAP = 700%Z
  ∧ delays (trace (updateMatrixAnimation w)) =
      [SHORT; SHORT_GAP; SHORT; LONG_GAP]
  ∧ Forall (λ ms, ms ∈ [SHORT; SHORT_GAP; LONG_GAP])
      (delays (trace (updateMatrixAnimation w))).
Proof.
  repeat split; rewrite update_run; simpl.
  repeat constructor.
Qed.

(** C7: [initMatrix] calls the driver's [begin()] once and does nothing
    else: no bitmap is rendered, no delay is issued, the arrays are left
    alone, and the result is the unit value of a [void] function. *)
Theorem initMatrix_begin_only w :
  result (initMatrix w) = tt
  ∧ trace (initMatrix w) = [Begin]
  ∧ calls KBegin (trace (initMatrix w)) = 1
  ∧ renders (trace (initMatrix w)) = []
  ∧ delays (trace (initMatrix w)) = []
  ∧ after (initMatrix w) = mkWorld (globals w) (drv_begin (matrix w)).
Proof. by rewrite init_run. Qed.

(** C8: every [renderBitmap] call of the sequencer passes 8 as the row
    count and 12 as the column count, and the array it passes has 8 rows
    of 12 cells. *)
Theorem render_counts w :
  well_typed w →
  Forall (λ call, call.1.2 = 8%Z ∧ call.2 = 12%Z ∧ counts_match call)
    (renders (trace (updateMatrixAnimation w))).
Proof.
  intros Hty. rewrite update_run. simpl.
  repeat (constructor; [by auto using typed_array_counts |]).
  constructor.
Qed.

(** C9: [updateMatrixAnimation] is a sequence of driver calls and delays
    with no branch and no loop.  From every state it returns, having made
    five render calls and four delay calls, alternating, render first and
    last. *)
Theorem update_straight_line w :
  StraightLine updateMatrixAnimation
    [KRender; KWait; KRender; KWait; KRender; KWait; KRender; KWait; KRender]
  ∧ ∃ w' tr,
      updateMatrixAnimation w = (tt, w', tr)
      ∧ kind <$> tr =
          [KRender; KWait; KRender; KWait; KRender; KWait; KRender; KWait;
           KRender]
      ∧ calls KRender tr = 5 ∧ calls KWait tr = 4 ∧ calls KBegin tr = 0.
Proof.
  split; [apply update_is_straight_line |].
  eexists _, _. split; [apply update_run |]. by repeat split.
Qed.

End SequencerClaims.

(** ** With the recording driver *)

Lemma recorder_replay (tr : list Event) (h : Recorder) :
  replay tr h = h ++ tr.
Proof.
  revert h. induction tr as [| e tr IH]; intros h.
  - by rewrite app_nil_r.
  - change (replay (e :: tr) h) with (replay tr (apply_event h e)).
    rewrite IH. destruct e; simpl; by rewrite <- app_assoc.
Qed.

Lemma boot_well_typed {Hw : Type} (h : Hw) : well_typed (boot h).
Proof. intros g. apply initial_value_shape. Qed.

Lemma render_counts_witness :
  well_typed (boot ([] : Recorder))
  ∧ Forall (λ call, call.1.2 = 8%Z ∧ call.2 = 12%Z ∧ counts_match call)
      (renders (trace (updateMatrixAnimation (boot ([] : Recorder))))).
Proof.
  split; [apply boot_well_typed |].
  apply (render_counts (boot ([] : Recorder))), boot_well_typed.
Defined.

(** The end-to-end scenario: a fresh recording driver, one call of the
    sequencer, and the calls the driver has seen. *)
Example scenario_one_cycle :
  matrix (after (updateMatrixAnimation (boot ([] : Recorder)))) =
    [ Render (initial_value frame_small) 8 12; Wait 100;
      Render (initial_value frame_med) 8 12;   Wait 100;
      Render (initial_value frame_full) 8 12;  Wait 100;
      Render (initial_value frame_med) 8 12;   Wait 700;
      Render (initial_value frame_off) 8 12 ].
Proof. reflexivity. Qed.

(** Start-up followed by two beats, as [setup()] and [loop()] would run
    them. *)
Example scenario_setup_then_two_beats :
  matrix (after (run_ops [OpInit; OpUpdate; OpUpdate] (boot ([] : Recorder)))) =
    Begin :: heartbeat initial_value ++ heartbeat initial_value.
Proof. reflexivity. Qed.

(** One beat asks for a second of waiting in all. *)
Example one_cycle_waits_1000ms :
  foldr Z.add 0%Z
    (delays (trace (updateMatrixAnimation (boot ([] : Recorder))))) = 1000%Z.
Proof. reflexivity. Qed.

Example timings_are_unsigned_long :
  is_unsigned_long SHORT ∧ is_unsigned_long SHORT_GAP
  ∧ is_unsigned_long LONG_GAP.
Proof. unfold is_unsigned_long, SHORT, SHORT_GAP, LONG_GAP. lia. Qed.

Example bitmap_cells_are_bytes (g : global) :
  Forall (Forall is_byte) (initial_value g).
Proof.
  eapply Forall_impl; [apply initial_value_binary |].
  intros row Hrow. eapply Forall_impl; [exact Hrow |].
  intros v [-> | ->]; unfold is_byte; lia.
Qed.

(** The rendered picture of [frame_off] differs from the others, so the
    last render of a beat does blank the display. *)
Example frame_off_is_not_a_heart :
  initial_value frame_off ≠ initial_value frame_small
  ∧ initial_value frame_off ≠ initial_value frame_med
  ∧ initial_value frame_off ≠ initial_value frame_full.
Proof. repeat split; discriminate. Qed.

(** ** Sequences of calls *)

Section CallSequences.
Context {Hw : Type} `{!Platform Hw}.
Implicit Types (w : World Hw) (os : list Op) (tr : list Event).

Lemma run_op_trace (o : Op) w :
  trace (run_op o w) = op_trace (globals w) o.
Proof. destruct o; reflexivity. Qed.

Lemma run_ops_trace_flat os w :
  trace (run_ops os w) = os ≫= op_trace (globals w).
Proof.
  revert w. induction os as [| o os IH]; intros w.
  - reflexivity.
  - simpl run_ops. rewrite trace_seq, IH, run_op_globals, run_op_trace.
    by rewrite bind_cons.
Qed.

Lemma repeat_update_as_ops (n : nat) :
  repeat_update n = run_ops (replicate n OpUpdate).
Proof. induction n as [| n IH]; simpl; [reflexivity | by rewrite IH]. Qed.

Lemma calls_app (k : Kind) tr1 tr2 :
  calls k (tr1 ++ tr2) = calls k tr1 + calls k tr2.
Proof. unfold calls. by rewrite filter_app, length_app. Qed.

Lemma total_wait_app tr1 tr2 :
  total_wait (tr1 ++ tr2) = (total_wait tr1 + total_wait tr2)%Z.
Proof.
  unfold total_wait, delays. rewrite omap_app.
  induction (omap _ tr1) as [| ms l IH]; simpl; [reflexivity | lia].
Qed.

Lemma inits_cons (o : Op) os :
  inits (o :: os) = (if decide (o = OpInit) then 1 else 0) + inits os.
Proof. unfold inits. rewrite filter_cons. by destruct (decide _). Qed.

Lemma updates_cons (o : Op) os :
  updates (o :: os) = (if decide (o = OpUpdate) then 1 else 0) + updates os.
Proof. unfold updates. rewrite filter_cons. by destruct (decide _). Qed.

Lemma op_trace_calls (mem : global → Frame) os :
  calls KBegin (os ≫= op_trace mem) = inits os
  ∧ calls KRender (os ≫= op_trace mem) = 5 * updates os
  ∧ calls KWait (os ≫= op_trace mem) = 4 * updates os.
Proof.
  induction os as [| o os (IHb & IHr & IHw)]; [done |].
  rewrite bind_cons, !calls_app, IHb, IHr, IHw, inits_cons, updates_cons.
  destruct o; simpl; repeat split; try reflexivity; lia.
Qed.

Lemma op_trace_total_wait (mem : global → Frame) os :
  total_wait (os ≫= op_trace mem) = (1000 * Z.of_nat (updates os))%Z.
Proof.
  induction os as [| o os IH]; [done |].
  rewrite bind_cons, total_wait_app, IH, updates_cons.
  destruct o; simpl; [reflexivity |].
  change (total_wait (heartbeat mem)) with 1000%Z. lia.
Qed.

(** Appending a trace that opens with a driver call does not lengthen any
    hold of the first one. *)
Lemma hold_time_app tr1 tr2 :
  hold_time tr2 = 0%Z → hold_time (tr1 ++ tr2) = hold_time tr1.
Proof.
  intros Hzero. induction tr1 as [| e tr1 IH]; simpl; [exact Hzero |].
  destruct e; [reflexivity | reflexivity | by rewrite IH].
Qed.

Lemma opens_with_call_hold_time tr :
  opens_with_call tr → hold_time tr = 0%Z.
Proof. by destruct tr as [| [] tr]. Qed.

Lemma holds_app tr1 tr2 :
  opens_with_call tr2 → holds (tr1 ++ tr2) = holds tr1 ++ holds tr2.
Proof.
  intros Hopen. induction tr1 as [| e tr1 IH]; simpl; [reflexivity |].
  destruct e; rewrite IH; [reflexivity | | reflexivity].
  rewrite hold_time_app; [reflexivity |].
  by apply opens_with_call_hold_time.
Qed.

Lemma beats_open_with_call (mem : global → Frame) (n : nat) :
  opens_with_call (mjoin (replicate n (heartbeat mem))).
Proof. by destruct n. Qed.

Lemma beats_holds (mem : global → Frame) (n : nat) :
  holds (mjoin (replicate n (heartbeat mem))) =
    mjoin (replicate n (holds (heartbeat mem))).
Proof.
  induction n as [| n IH]; [reflexivity |].
  change (mjoin (replicate (S n) (heartbeat mem)))
    with (heartbeat mem ++ mjoin (replicate n (heartbeat mem))).
  rewrite holds_app by apply beats_open_with_call.
  by rewrite IH.
Qed.

Lemma op_trace_renders (mem : global → Frame) os :
  Forall (λ call, ∃ g, call = (mem g, 8%Z, 12%Z))
    (renders (os ≫= op_trace mem)).
Proof.
  induction os as [| o os IH]; [constructor |].
  rewrite bind_cons. unfold renders. rewrite omap_app.
  apply Forall_app_2; [| exact IH].
  destruct o; simpl; repeat constructor; eauto.
Qed.

End CallSequences.

(** ** Symmetry of the bitmaps *)

Lemma mirrored_row_lookup (row : list byte) (c : nat) :
  length row = 12 →
  take 11 row = reverse (take 11 row) →
  c ≤ 10 → row !! (10 - c) = row !! c.
Proof.
  intros Hlen Hrev Hc.
  rewrite <- (lookup_take_lt row 11 c) by lia.
  rewrite <- (lookup_take_lt row 11 (10 - c)) by lia.
  rewrite Hrev at 2. rewrite reverse_lookup.
  - by rewrite length_take_le by lia.
  - rewrite length_take_le by lia. lia.
Qed.

Lemma mirroredb_cell (f : Frame) (r c : nat) :
  has_shape 8 12 f → mirroredb f = true → c ≤ 10 →
  cell f r (10 - c) = cell f r c.
Proof.
  intros [_ Hcols] Hmir Hc. unfold cell.
  destruct (f !! r) as [row |] eqn:Hrow; simpl; [| reflexivity].
  apply mirrored_row_lookup; [| | exact Hc].
  - rewrite Forall_lookup in Hcols. by eapply Hcols.
  - unfold mirroredb in Hmir. rewrite forallb_forall in Hmir.
    eapply bool_decide_eq_true_1, Hmir, list_elem_of_In.
    by eapply list_elem_of_lookup_2.
Qed.

Lemma initial_value_mirrored (g : global) :
  mirroredb (initial_value g) = true.
Proof. by destruct g; vm_compute. Qed.

(** X5: every bitmap of the file is symmetric about column 5: in each row,
    columns 0..10 read the same from either end.  (Column 11 has no
    partner.) *)
Theorem bitmaps_mirrored (g : global) (r c : nat) :
  c ≤ 10 →
  cell (initial_value g) r (10 - c) = cell (initial_value g) r c.
Proof.
  intros Hc. apply mirroredb_cell; [| | exact Hc].
  - apply initial_value_shape.
  - apply initial_value_mirrored.
Qed.

Lemma bitmaps_mirrored_witness :
  2 ≤ 10
  ∧ cell (initial_value frame_full) 0 8 = cell (initial_value frame_full) 0 2.
Proof.
  split; [lia |]. apply (bitmaps_mirrored frame_full 0 2). lia.
Defined.

(** Past the last column the two sides differ: one names a cell of the
    array, the other does not. *)
Example mirror_needs_a_column_of_the_array :
  cell (initial_value frame_full) 0 (10 - 12) ≠
    cell (initial_value frame_full) 0 12.
Proof. discriminate. Qed.

(** ** What call sequences ask of the platform *)

Section CallSequenceFacts.
Context {Hw : Type} `{!Platform Hw}.
Implicit Types (w : World Hw) (os : list Op) (h : Hw).

(** X1: a sequence of calls to the two entry points issues the traces of
    its calls one after the other: [begin()] for each [initMatrix], the
    heartbeat for each [updateMatrixAnimation].  Every one of them is fixed
    by the arrays as they stood before the first call; no call alters what
    a later one issues. *)
Theorem ops_trace_composes os w :
  trace (run_ops os w) = os ≫= op_trace (globals w).
Proof. apply run_ops_trace_flat. Qed.

(** X2: in any call sequence the driver's [begin()] is called once per
    [initMatrix], [renderBitmap] five times and [delay] four times per
    [updateMatrixAnimation], and never otherwise. *)
Theorem ops_call_counts os w :
  calls KBegin (trace (run_ops os w)) = inits os
  ∧ calls KRender (trace (run_ops os w)) = 5 * updates os
  ∧ calls KWait (trace (run_ops os w)) = 4 * updates os.
Proof. rewrite run_ops_trace_flat. apply op_trace_calls. Qed.

(** X3: a call sequence spends 1000 ms in [delay] for each
    [updateMatrixAnimation] it holds, and none for [initMatrix]. *)
Theorem ops_total_wait os w :
  total_wait (trace (run_ops os w)) = (1000 * Z.of_nat (updates os))%Z.
Proof. rewrite run_ops_trace_flat. apply op_trace_total_wait. Qed.

(** X4: when [updateMatrixAnimation] is called [n] times back to back,
    [frame_small] is held 100 ms, [frame_med] 100 ms, [frame_full] 100 ms,
    [frame_med] again 700 ms, and [frame_off] 0 ms: the long pause of a
    beat shows the medium heart, and no delay separates the blank frame
    from the next beat's first render. *)
Theorem back_to_back_holds (n : nat) w :
  holds (trace (repeat_update n w)) =
    mjoin (replicate n
      [ (globals w frame_small, 100%Z);
        (globals w frame_med, 100%Z);
        (globals w frame_full, 100%Z);
        (globals w frame_med, 700%Z);
        (globals w frame_off, 0%Z) ]).
Proof. by rewrite repeat_update_trace, beats_holds. Qed.

(** X6: from program start, whatever the sequence of calls, every
    [renderBitmap] call passes one of the file's four bitmaps as
    initialised, with the counts 8 and 12; the bitmap has 8 rows of 12
    cells and every cell is 0 or 1. *)
Theorem renders_from_boot os h :
  Forall (λ call, initial_bitmap_call call ∧ counts_match call
                  ∧ binary call.1.1)
    (renders (trace (run_ops os (boot h)))).
Proof.
  rewrite run_ops_trace_flat.
  eapply Forall_impl; [apply op_trace_renders |].
  intros call [g ->]. split; [by exists g |]. split.
  - apply (typed_array_counts (boot h) g), boot_well_typed.
  - apply initial_value_binary.
Qed.

(** X7: a call sequence that ends with [updateMatrixAnimation] ends with
    the render of [frame_off]: the entry point returns with the display
    asked to go dark. *)
Theorem update_leaves_display_off os w :
  last (trace (run_ops (os ++ [OpUpdate]) w)) =
    Some (Render (globals w frame_off) 8 12).
Proof.
  rewrite run_ops_trace_flat, bind_app.
  change ([OpUpdate] ≫= op_trace (globals w))
    with (heartbeat (globals w)).
  rewrite last_app. reflexivity.
Qed.

End CallSequenceFacts.
